(** * cities.models: the place hierarchy, nearest-place queries and
      full-code indexes of django-cities, embedded from [src/cities/models.py].

    The module is written against Django's ORM and its GIS extension.  What
    the module consumes from them is modelled here by its observable
    behaviour on a table held as a list of rows:
    - a query set is the list of rows it evaluates to, in result order;
    - exceptions are an explicit outcome, and [LOG.debug] appends to a log
      that is threaded through every call;
    - a dict is a [gmap] keyed by strings. *)

From Stdlib Require Import QArith Qabs.
From stdpp Require Import gmap strings list fin_maps pretty.
From Equations Require Import Equations.

Set Default Proof Using "Type".

(** ** Python values the module relies on *)

Module Py.

(** The exception classes that [models.py] names. *)
Inductive exn : Type :=
| FieldError (msg : string)
| TypeError (msg : string)
| IndexError (msg : string).

Inductive outcome (A : Type) : Type :=
| Return (a : A)
| Raise (e : exn).
Arguments Return {A} a.
Arguments Raise {A} e.

(** A computation reads the records logged so far and gives back its
    outcome with the records it added.  A raised exception keeps the log. *)
Definition py (A : Type) : Type := list string → outcome A * list string.

Definition ret {A} (a : A) : py A := λ log, (Return a, log).
Definition raise {A} (e : exn) : py A := λ log, (Raise e, log).
Definition bind {A B} (m : py A) (k : A → py B) : py B :=
  λ log, match m log with
         | (Return a, log') => k a log'
         | (Raise e, log') => (Raise e, log')
         end.

(** [try: m except ...: h]: the handler answers [None] for an exception
    its clauses do not name, which then keeps propagating. *)
Definition try_except {A} (m : py A) (h : exn → option (py A)) : py A :=
  λ log, match m log with
         | (Return a, log') => (Return a, log')
         | (Raise e, log') =>
             match h e with
             | Some handler => handler log'
             | None => (Raise e, log')
             end
         end.

(** [LOG.debug(msg)] *)
Definition LOG_debug (msg : string) : py unit := λ log, (Return tt, log ++ [msg]).

(** [sep.join(parts)] *)
Fixpoint join (sep : string) (parts : list string) : string :=
  match parts with
  | [] => ""
  | [s] => s
  | s :: rest => s +:+ sep +:+ join sep rest
  end.

(** Truth value of an optional model instance: [None] is false, a model
    instance (which defines neither [__bool__] nor [__len__]) is true. *)
Definition truthy_instance {A} (o : option A) : bool :=
  match o with Some _ => true | None => false end.

(** Truth value of an optional integer: [None] and [0] are false. *)
Definition truthy_int (o : option Z) : bool :=
  match o with Some n => negb (n =? 0)%Z | None => false end.

(** [a(n) if o else b] for an optional integer [o], where [a] may read the
    integer. *)
Definition if_int {A} (o : option Z) (a : Z → A) (b : A) : A :=
  match o with
  | Some n => if truthy_int (Some n) then a n else b
  | None => b
  end.

(** Truth value of an optional sequence: [None] and the empty sequence are
    false. *)
Definition truthy_seq {A} (o : option (list A)) : bool :=
  match o with Some (_ :: _) => true | _ => false end.

End Py.
Export Py.

(** The monad operations under stdpp's [x ← m; k] and [m;; k] notations. *)
#[export] Instance py_ret : MRet py := @ret.
#[export] Instance py_bind : MBind py := λ A B k m, bind m k.

(** ** The geospatial query layer *)

(** [django.contrib.gis.geos.Point(x, y)] *)
Record Point : Type := { x : Q; y : Q }.

(** What the spatial backend provides: the geodesic distance between two
    points, in miles, and the text form of a point used in log records. *)
Class GeoBackend : Type := {
  geodesic_miles : Point → Point → Q;
  Point_str : Point → string;
}.

Module Orm.
Section Orm.
Context `{GeoBackend}.
Context {Row : Type}.

(** A model class: its printed form and, when it declares one, the
    [location] point column (the only geometry column a place model of
    this module declares). *)
Record Model : Type := {
  model_repr : string;
  location_field : option (Row → Point);
}.

(** A query set: the model it ranges over and the rows it evaluates to. *)
Record QuerySet : Type := { qs_model : Model; qs_rows : list Row }.

(** A manager: the model and the rows stored in its table. *)
Record Manager : Type := { model : Model; table : list Row }.

(** [D(mi=n)] *)
Definition D_mi (n : Z) : Q := inject_Z n.

(** [self.all()] *)
Definition all (self : Manager) : QuerySet :=
  {| qs_model := model self; qs_rows := table self |}.

(** [self.filter(location__distance_lte=(point, d))]: resolving the lookup
    fails with [FieldError] on a model without a [location] column. *)
Definition filter_location_distance_lte
    (self : Manager) (point : Point) (d : Q) : py QuerySet :=
  match location_field (model self) with
  | None => raise (FieldError "Cannot resolve keyword 'location' into field.")
  | Some loc =>
      ret {| qs_model := model self;
             qs_rows := List.filter
                          (λ r, Qle_bool (geodesic_miles (loc r) point) d)
                          (table self) |}
  end.

(** [qs.distance(point)]: every row annotated with its distance to the
    point; [TypeError] on a model without a geometry column. *)
Definition distance (qs : QuerySet) (point : Point) : py (list (Row * Q)) :=
  match location_field (qs_model qs) with
  | None => raise (TypeError "distance output only available on GeometryFields.")
  | Some loc => ret (map (λ r, (r, geodesic_miles (loc r) point)) (qs_rows qs))
  end.

(** [.order_by('distance')]: ascending, rows at equal distance keep their
    relative order. *)
Fixpoint insert_by_distance (a : Row * Q) (l : list (Row * Q)) : list (Row * Q) :=
  match l with
  | [] => [a]
  | b :: l' =>
      if Qle_bool (snd a) (snd b) then a :: b :: l'
      else b :: insert_by_distance a l'
  end.

Definition order_by_distance (l : list (Row * Q)) : list (Row * Q) :=
  foldr insert_by_distance [] l.

(** [seq[i]] *)
Definition getitem {A} (l : list A) (i : nat) : py A :=
  match nth_error l i with
  | Some a => ret a
  | None => raise (IndexError "list index out of range")
  end.

End Orm.
Arguments Model : clear implicits.
Arguments QuerySet : clear implicits.
Arguments Manager : clear implicits.
End Orm.
Export Orm.

(** ** PlaceManager *)

Section PlaceManager.
Context `{GeoBackend}.
Context {Row : Type}.

Definition msg_no_location (self : Manager Row) : string :=
  "Specifying a range_in_miles requires " +:+ model_repr (model self) +:+
  " to have a location field to search by.  " +:+
  "Implement a meaningful nearest_to func if you need this feature.".

Definition msg_incompatible (self : Manager Row) : string :=
  model_repr (model self) +:+ " doesn't appear to be compatible with a distance call.".

Definition msg_no_candidates (point : Point) (range_in_miles : option Z) : string :=
  "No Place candidates near to " +:+ Point_str point +:+
  ".  Max mileage was " +:+
  if_int range_in_miles (λ n, pretty n) "not considered." +:+ ".".

(** [PlaceManager.nearest_to(self, point, range_in_miles=None)] *)
Definition PlaceManager_nearest_to
    (self : Manager Row) (point : Point) (range_in_miles : option Z)
    : py (option Row) :=
  place_candidates ← ret (all self);
  place_candidates ←
    if_int range_in_miles
      (λ n, try_except
              (filter_location_distance_lte self point (D_mi n))
              (λ e, match e with
                    | FieldError _ =>
                        Some (LOG_debug (msg_no_location self) ;;
                              raise (FieldError (msg_no_location self)))
                    | _ => None
                    end))
      (ret place_candidates);
  try_except
    (annotated ← distance place_candidates point;
     first ← getitem (order_by_distance annotated) 0;
     ret (Some (fst first)))
    (λ e, match e with
          | TypeError _ =>
              Some (LOG_debug (msg_incompatible self) ;; raise e)
          | IndexError _ =>
              Some (LOG_debug (msg_no_candidates point range_in_miles) ;;
                    ret None)
          | _ => None
          end).

End PlaceManager.

(** ** The models

    Every model has the columns of [Place] ([name], [slug]) and a primary
    key [id].  A foreign key holds the row it points to; a nullable one is
    an [option].  The many-to-many relations ([alt_names], [neighbours]) live
    in join tables of their own and are not columns of these rows. *)

Module Country.
Record t : Type := {
  id : Z; name : string; slug : string;
  code : string; code3 : string; population : Z; area : option Z;
  currency : option string; currency_name : option string;
  languages : option string; phone : string; continent : string;
  tld : string; capital : string;
}.
End Country.

Module Region.
Record t : Type := {
  id : Z; name : string; slug : string;
  name_std : string; code : string; country : Country.t;
}.

(** [Region.parent] *)
Definition parent (self : t) : Country.t := country self.

(** [Region.full_code] *)
Definition full_code (self : t) : string :=
  join "." [Country.code (parent self); code self].

Definition model : Model t :=
  {| model_repr := "<class 'cities.models.Region'>"; location_field := None |}.
End Region.

Module Subregion.
Record t : Type := {
  id : Z; name : string; slug : string;
  name_std : string; code : string; region : Region.t;
}.

(** [Subregion.parent] *)
Definition parent (self : t) : Region.t := region self.

(** [Subregion.full_code] *)
Definition full_code (self : t) : string :=
  join "." [Country.code (Region.parent (parent self));
            Region.code (parent self);
            code self].

Definition model : Model t :=
  {| model_repr := "<class 'cities.models.Subregion'>"; location_field := None |}.
End Subregion.

Module City.
Record t : Type := {
  id : Z; name : string; slug : string;
  name_std : string; location : Point; population : Z;
  region : option Region.t; subregion : option Subregion.t;
  country : Country.t; elevation : option Z;
  kind : string; timezone : string;
}.

(** [City.parent] *)
Definition parent (self : t) : option Region.t := region self.

Definition model : Model t :=
  {| model_repr := "<class 'cities.models.City'>";
     location_field := Some location |}.

(** [City.objects], over the rows of the city table. *)
Definition objects (cities : list t) : Manager t :=
  {| Orm.model := model; table := cities |}.
End City.

Module District.
Record t : Type := {
  id : Z; name : string; slug : string;
  name_std : string; location : Point; population : Z; city : City.t;
}.

(** [District.parent] *)
Definition parent (self : t) : City.t := city self.

Definition model : Model t :=
  {| model_repr := "<class 'cities.models.District'>";
     location_field := Some location |}.
End District.

Module PostalCode.
Record t : Type := {
  id : Z; name : string; slug : string;
  code : string; location : Point; country : Country.t;
  region_name : string; subregion_name : string; district_name : string;
}.

(** [PostalCode.parent] *)
Definition parent (self : t) : Country.t := country self.
End PostalCode.

(** ** Place: the behaviour the models share *)

Module Place.

(** An instance of one of the concrete place models. *)
Inductive t : Type :=
| ACountry (c : Country.t)
| ARegion (r : Region.t)
| ASubregion (s : Subregion.t)
| ACity (c : City.t)
| ADistrict (d : District.t)
| APostalCode (p : PostalCode.t).

(** [self.parent], dispatched on the class of [self]; [Country.parent]
    is [None]. *)
Definition parent (self : t) : option t :=
  match self with
  | ACountry _ => None
  | ARegion r => Some (ACountry (Region.parent r))
  | ASubregion s => Some (ARegion (Subregion.parent s))
  | ACity c => ARegion <$> City.parent c
  | ADistrict d => Some (ACity (District.parent d))
  | APostalCode p => Some (ACountry (PostalCode.parent p))
  end.

(** The level of a model in the schema; a parent is always of a lower
    level, which is what makes the walk to the root finite. *)
Definition level (self : t) : nat :=
  match self with
  | ACountry _ => 0
  | ARegion _ | APostalCode _ => 1
  | ASubregion _ | ACity _ => 2
  | ADistrict _ => 3
  end.

Lemma parent_level (self p : t) : parent self = Some p → level p < level self.
Proof.
  destruct self as [c|r|s|c|d|pc]; simpl; try (intros [= <-]; simpl; lia).
  unfold City.parent. destruct (City.region c); intros [= <-]. simpl. lia.
Qed.

(** [Place.hierarchy]:
    [list = self.parent.hierarchy if self.parent else []; list.append(self)] *)
Equations hierarchy (self : t) : list t by wf (level self) lt :=
  hierarchy self with Equations.Prop.Logic.inspect (parent self) := {
    | exist _ (Some p) E => hierarchy p ++ [self]
    | exist _ None _ => [] ++ [self] }.
Next Obligation. by apply parent_level. Qed.

Definition slug (self : t) : string :=
  match self with
  | ACountry c => Country.slug c
  | ARegion r => Region.slug r
  | ASubregion s => Subregion.slug s
  | ACity c => City.slug c
  | ADistrict d => District.slug d
  | APostalCode p => PostalCode.slug p
  end.

(** [Place.get_absolute_url] *)
Definition get_absolute_url (self : t) : string :=
  join "/" (slug <$> hierarchy self).

End Place.

(** ** CountryManager *)

Section CountryManager.
Context `{GeoBackend}.

(** [CountryManager.nearest_to(self, point, range_in_miles=None)]; the
    city table is the one [City.objects] reads. *)
Definition CountryManager_nearest_to
    (cities : list City.t) (point : Point) (range_in_miles : option Z)
    : py (option Country.t) :=
  nearest_city ← PlaceManager_nearest_to (City.objects cities) point range_in_miles;
  ret (if truthy_instance nearest_city
       then City.country <$> nearest_city
       else None).

(** The specification's wording of the same lookup: run the city lookup
    with the same point and radius, then read the country of the city it
    found; nothing found stays nothing found, a failure stays a failure. *)
Definition country_of_nearest_city
    (cities : list City.t) (point : Point) (range_in_miles : option Z)
    : py (option Country.t) :=
  λ log,
    match PlaceManager_nearest_to (City.objects cities) point range_in_miles log with
    | (Return (Some city), log') => (Return (Some (City.country city)), log')
    | (Return None, log') => (Return None, log')
    | (Raise e, log') => (Raise e, log')
    end.

End CountryManager.

(** ** RegionManager and SubregionManager *)

Section FullIndex.
Context {Row : Type}.

(** [queryset or other]: a query set is false when it has no rows. *)
Definition queryset_or (queryset : option (QuerySet Row)) (other : QuerySet Row)
    : QuerySet Row :=
  match queryset with
  | Some qs => if truthy_seq (Some (qs_rows qs)) then qs else other
  | None => other
  end.

(** [queryset.select_related(...)]: the same rows, with the related rows
    fetched in the same query. *)
Definition select_related (queryset : QuerySet Row) (fields : list string)
    : QuerySet Row := queryset.

(** [{key(r): r for r in rows}]: later rows overwrite earlier ones that
    have the same key. *)
Definition dict_comprehension (key : Row → string) (rows : list Row)
    : gmap string Row :=
  foldl (λ d r, <[key r := r]> d) ∅ rows.

End FullIndex.

(** [RegionManager.get_full_index(self, queryset=None)] *)
Definition RegionManager_get_full_index
    (self : Manager Region.t) (queryset : option (QuerySet Region.t))
    : gmap string Region.t :=
  let queryset := queryset_or queryset (all self) in
  let regions := select_related queryset ["country"] in
  dict_comprehension Region.full_code (qs_rows regions).

(** [SubregionManager.get_full_index(self, queryset=None)] *)
Definition SubregionManager_get_full_index
    (self : Manager Subregion.t) (queryset : option (QuerySet Subregion.t))
    : gmap string Subregion.t :=
  let queryset := queryset_or queryset (all self) in
  let subregions := select_related queryset ["region"; "region__country"] in
  dict_comprehension Subregion.full_code (qs_rows subregions).

(** [Region.objects] and [Subregion.objects], over the rows of their tables. *)
Definition Region_objects (regions : list Region.t) : Manager Region.t :=
  {| model := Region.model; table := regions |}.
Definition Subregion_objects (subregions : list Subregion.t) : Manager Subregion.t :=
  {| model := Subregion.model; table := subregions |}.

(** The [Country] model class: it declares no [location] column. *)
Definition Country_model : Model Country.t :=
  {| model_repr := "<class 'cities.models.Country'>"; location_field := None |}.

(** ** Notions used to state the properties *)

Section Candidates.
Context `{GeoBackend}.
Context {Row : Type}.

(** The candidate rows of a nearest-place query: those within the radius
    when one is given and is not zero, all rows otherwise. *)
Definition candidates (self : Manager Row) (loc : Row → Point) (point : Point)
    (range_in_miles : option Z) : list Row :=
  if_int range_in_miles
    (λ n, List.filter (λ r, Qle_bool (geodesic_miles (loc r) point) (D_mi n))
            (table self))
    (table self).

End Candidates.

(** The rows a full-code index is asked to cover: those of the base query
    when one is supplied, all rows of the table otherwise. *)
Definition input_rows {Row : Type} (self : Manager Row)
    (queryset : option (QuerySet Row)) : list Row :=
  match queryset with
  | Some qs => qs_rows qs
  | None => table self
  end.

(** What it is for a mapping to be the full-code index of some rows: its keys
    are the rows' keys; there are as many entries as distinct keys; a key
    leads to the last of the rows that carry it; and when no two rows carry
    the same key there is one entry per row, each row found under its key. *)
Definition full_index_of {Row : Type} (key : Row → string) (rows : list Row)
    (index : gmap string Row) : Prop :=
  dom index = list_to_set (key <$> rows) ∧
  size index = length (remove_dups (key <$> rows)) ∧
  (∀ k, index !! k = last (filter (λ r, key r = k) rows)) ∧
  (NoDup (key <$> rows) →
     size index = length rows ∧ ∀ r, r ∈ rows → index !! key r = Some r).

(** ** Sample rows

    A small database on a flat map, one unit to the mile, with distances
    measured along the grid. *)

Module Sample.

Definition flat : GeoBackend :=
  {| geodesic_miles := λ p q, (Qabs (x p - x q) + Qabs (y p - y q))%Q;
     Point_str := λ _, "POINT" |}.

Definition origin : Point := {| x := 0; y := 0 |}.

Definition france : Country.t :=
  {| Country.id := 1; Country.name := "France"; Country.slug := "france";
     Country.code := "FR"; Country.code3 := "FRA";
     Country.population := 64768389; Country.area := Some 547030%Z;
     Country.currency := Some "EUR"; Country.currency_name := Some "Euro";
     Country.languages := Some "fr-FR"; Country.phone := "33";
     Country.continent := "EU"; Country.tld := ".fr";
     Country.capital := "Paris" |}.

Definition idf : Region.t :=
  {| Region.id := 10; Region.name := "Ile-de-France"; Region.slug := "ile-de-france";
     Region.name_std := "Ile-de-France"; Region.code := "11";
     Region.country := france |}.

(** A second row carrying the same code in the same country. *)
Definition idf_again : Region.t :=
  {| Region.id := 11; Region.name := "Paris Region"; Region.slug := "paris-region";
     Region.name_std := "Paris Region"; Region.code := "11";
     Region.country := france |}.

Definition bretagne : Region.t :=
  {| Region.id := 12; Region.name := "Bretagne"; Region.slug := "bretagne";
     Region.name_std := "Bretagne"; Region.code := "53";
     Region.country := france |}.

Definition paris_dept : Subregion.t :=
  {| Subregion.id := 20; Subregion.name := "Paris"; Subregion.slug := "paris";
     Subregion.name_std := "Paris"; Subregion.code := "75";
     Subregion.region := idf |}.

Definition paris_dept_again : Subregion.t :=
  {| Subregion.id := 21; Subregion.name := "Ville de Paris"; Subregion.slug := "ville-de-paris";
     Subregion.name_std := "Ville de Paris"; Subregion.code := "75";
     Subregion.region := idf |}.

Definition paris : City.t :=
  {| City.id := 30; City.name := "Paris"; City.slug := "paris";
     City.name_std := "Paris"; City.location := {| x := 3; y := 4 |};
     City.population := 2138551; City.region := Some idf;
     City.subregion := Some paris_dept; City.country := france;
     City.elevation := Some 42%Z; City.kind := "PPLC";
     City.timezone := "Europe/Paris" |}.

Definition rennes : City.t :=
  {| City.id := 31; City.name := "Rennes"; City.slug := "rennes";
     City.name_std := "Rennes"; City.location := {| x := -20; y := 1 |};
     City.population := 209375; City.region := Some bretagne;
     City.subregion := None; City.country := france;
     City.elevation := None; City.kind := "PPLA";
     City.timezone := "Europe/Paris" |}.

(** A city whose region is not recorded. *)
Definition outpost : City.t :=
  {| City.id := 32; City.name := "Outpost"; City.slug := "outpost";
     City.name_std := "Outpost"; City.location := {| x := 100; y := 100 |};
     City.population := 12; City.region := None;
     City.subregion := None; City.country := france;
     City.elevation := None; City.kind := "PPL";
     City.timezone := "Europe/Paris" |}.

Definition marais : District.t :=
  {| District.id := 40; District.name := "Le Marais"; District.slug := "le-marais";
     District.name_std := "Le Marais"; District.location := {| x := 3; y := 5 |};
     District.population := 64795; District.city := paris |}.

Definition cities : list City.t := [rennes; paris; outpost].

End Sample.

(** ** Text forms *)

(** [force_text(s)] on a text value. *)
Definition force_text (s : string) : string := s.

(** Truth value of a text: the empty text is false. *)
Definition truthy_text (s : string) : bool :=
  match s with
  | EmptyString => false
  | String _ _ => true
  end.

(** [Place.__str__], as [Country] inherits it; it is what
    [force_text(country)] gives for a country row. *)
Definition Country_str (self : Country.t) : string :=
  force_text (Country.name self).

(** [PostalCode.__str__] *)
Definition PostalCode_str (self : PostalCode.t) : string :=
  force_text (PostalCode.code self).

(** [PostalCode.names] *)
Definition PostalCode_names (self : PostalCode.t) : list string :=
  List.filter truthy_text
    [ Country_str (PostalCode.country self);
      force_text (PostalCode.region_name self);
      force_text (PostalCode.subregion_name self);
      force_text (PostalCode.district_name self);
      force_text (PostalCode.name self) ].

(** [PostalCode.name_full] *)
Definition PostalCode_name_full (self : PostalCode.t) : string :=
  force_text (join ", " (rev (PostalCode_names self))).

(** A code without a dot in it. *)
Fixpoint dot_free (s : string) : bool :=
  match s with
  | EmptyString => true
  | String c s' => negb (String.eqb (String c EmptyString) ".") && dot_free s'
  end.

(** The models whose rows other rows point to as their parent. *)
Definition parent_model (place : Place.t) : Prop :=
  match place with
  | Place.ACountry _ | Place.ARegion _ | Place.ACity _ => True
  | _ => False
  end.

(** * Properties *)

(** ** Ordering by distance *)

Section OrderByDistance.
Context {Row : Type}.
Implicit Types (a b : Row * Q) (l : list (Row * Q)).

Lemma Qle_bool_false (p q : Q) : Qle_bool p q = false → (q <= p)%Q.
Proof.
  intros Hf. apply Qlt_le_weak, Qnot_le_lt. intros Hle.
  apply Qle_bool_iff in Hle. congruence.
Qed.

Lemma insert_by_distance_elem a b l :
  b ∈ insert_by_distance a l ↔ b = a ∨ b ∈ l.
Proof.
  induction l as [|c l IH]; simpl.
  - rewrite list_elem_of_singleton, elem_of_nil. tauto.
  - destruct (Qle_bool (snd a) (snd c)).
    + by rewrite elem_of_cons.
    + rewrite !elem_of_cons, IH. tauto.
Qed.

Lemma order_by_distance_elem b l : b ∈ order_by_distance l ↔ b ∈ l.
Proof.
  induction l as [|a l IH]; simpl; [done|].
  by rewrite insert_by_distance_elem, elem_of_cons, IH.
Qed.

(** The head after an insertion is the new element or the old head,
    whichever is nearer. *)
Lemma insert_by_distance_head a l b t :
  insert_by_distance a l = b :: t →
  (snd b <= snd a)%Q ∧ (∀ c t', l = c :: t' → (snd b <= snd c)%Q).
Proof.
  destruct l as [|c l]; simpl.
  - intros [= <- <-]. split; [apply Qle_refl | intros ?? [=]].
  - destruct (Qle_bool (snd a) (snd c)) eqn:E; intros [= <- <-].
    + split; [apply Qle_refl|]. intros ?? [= <- <-]. by apply Qle_bool_iff.
    + split; [by apply Qle_bool_false|]. intros ?? [= <- <-]. apply Qle_refl.
Qed.

Lemma order_by_distance_head l b t :
  order_by_distance l = b :: t → ∀ c, c ∈ l → (snd b <= snd c)%Q.
Proof.
  revert b t. induction l as [|a l IH]; intros b t; simpl; [done|].
  intros Hins c Hc. apply insert_by_distance_head in Hins as [Hba Hhd].
  apply elem_of_cons in Hc as [->|Hc]; [done|].
  destruct (order_by_distance l) as [|h s] eqn:Hs.
  - apply order_by_distance_elem in Hc. rewrite Hs in Hc. by apply elem_of_nil in Hc.
  - eapply Qle_trans; [by eapply Hhd|]. by eapply IH.
Qed.

Lemma order_by_distance_nil l : order_by_distance l = [] ↔ l = [].
Proof.
  split; [|by intros ->].
  destruct l as [|a l]; [done|]. simpl. intros Hnil.
  assert (a ∈ insert_by_distance a (order_by_distance l)) as Ha
    by (apply insert_by_distance_elem; by left).
  rewrite Hnil in Ha. by apply elem_of_nil in Ha.
Qed.

End OrderByDistance.

(** ** What [nearest_to] evaluates to *)

Section NearestTo.
Context `{GeoBackend}.
Context {Row : Type}.
Implicit Types (self : Manager Row) (point : Point) (log : list string).

Lemma nearest_to_located self loc point range_in_miles log :
  location_field (model self) = Some loc →
  PlaceManager_nearest_to self point range_in_miles log =
    match order_by_distance
            (map (λ r, (r, geodesic_miles (loc r) point))
               (candidates self loc point range_in_miles)) with
    | [] => (Return None, log ++ [msg_no_candidates point range_in_miles])
    | first :: _ => (Return (Some (fst first)), log)
    end.
Proof.
  intros Hloc.
  unfold PlaceManager_nearest_to, candidates, if_int.
  destruct range_in_miles as [n|]; [destruct (truthy_int (Some n))|];
    unfold mbind, py_bind, bind, try_except, filter_location_distance_lte,
      distance, getitem, all, ret, raise, LOG_debug; simpl;
    repeat (rewrite Hloc; simpl);
    by destruct (order_by_distance _).
Qed.

Lemma nearest_to_unlocated self point range_in_miles log :
  location_field (model self) = None →
  PlaceManager_nearest_to self point range_in_miles log =
    if truthy_int range_in_miles
    then (Raise (FieldError (msg_no_location self)),
          log ++ [msg_no_location self])
    else (Raise (TypeError "distance output only available on GeometryFields."),
          log ++ [msg_incompatible self]).
Proof.
  intros Hloc.
  unfold PlaceManager_nearest_to, if_int.
  destruct range_in_miles as [n|]; [destruct (truthy_int (Some n))|];
    unfold mbind, py_bind, bind, try_except, filter_location_distance_lte,
      distance, getitem, all, ret, raise, LOG_debug; simpl;
    rewrite Hloc; reflexivity.
Qed.

End NearestTo.

(** ** Nearest-place queries *)

Section NearestToProperties.
Context `{GeoBackend}.
Context {Row : Type}.
Implicit Types (self : Manager Row) (point : Point) (log : list string).

(** On a model with a location the query never raises: it returns a
    nearest candidate, and nothing exactly when there is no candidate. *)
Lemma nearest_to_candidates self loc point range_in_miles log :
  location_field (model self) = Some loc →
  ∃ found log',
    PlaceManager_nearest_to self point range_in_miles log = (Return found, log') ∧
    (found = None ↔ candidates self loc point range_in_miles = []) ∧
    (∀ r, found = Some r →
       r ∈ candidates self loc point range_in_miles ∧
       ∀ r', r' ∈ candidates self loc point range_in_miles →
         (geodesic_miles (loc r) point <= geodesic_miles (loc r') point)%Q).
Proof.
  intros Hloc. rewrite (nearest_to_located _ loc) by done.
  set (rows := candidates self loc point range_in_miles).
  destruct (order_by_distance _) as [|first rest] eqn:Hsorted.
  - apply order_by_distance_nil, map_eq_nil in Hsorted.
    eexists _, _. split; [done|]. split; [done|]. by intros r [=].
  - eexists _, _. split; [done|].
    assert (first ∈ map (λ r, (r, geodesic_miles (loc r) point)) rows) as Hin.
    { apply order_by_distance_elem. rewrite Hsorted. left. }
    apply list_elem_of_In, in_map_iff in Hin as (r0 & <- & Hr0).
    split.
    + split; [done|]. intros Hnil. rewrite Hnil in Hr0. destruct Hr0.
    + intros r [= <-]. simpl. split; [by apply list_elem_of_In|].
      intros r' Hr'.
      apply (order_by_distance_head _ _ _ Hsorted (r', geodesic_miles (loc r') point)).
      apply list_elem_of_In, in_map_iff. exists r'.
      split; [done|]. by apply list_elem_of_In.
Qed.

Lemma elem_of_candidates_radius self loc point (n : Z) r :
  n ≠ 0%Z →
  r ∈ candidates self loc point (Some n) ↔
  r ∈ table self ∧ (geodesic_miles (loc r) point <= inject_Z n)%Q.
Proof.
  intros Hn. unfold candidates, if_int, truthy_int.
  destruct (Z.eqb_spec n 0) as [|_]; [done|]. simpl.
  rewrite !list_elem_of_In, filter_In, Qle_bool_iff. done.
Qed.

End NearestToProperties.

(** X19: for every entity with a location field, every query point and
    every radius of [n] miles, [n] not zero, [nearest_to(point, n)] returns
    a row only if that row's geodesic distance to the point is at most [n]
    miles, and returns [None] when (and only when) no row of the entity lies
    within [n] miles of the point. *)
Theorem nearest_to_within_radius `{GeoBackend} {Row : Type}
    (self : Manager Row) (loc : Row → Point) (point : Point) (n : Z)
    (log : list string) :
  location_field (model self) = Some loc →
  n ≠ 0%Z →
  ∃ found log',
    PlaceManager_nearest_to self point (Some n) log = (Return found, log') ∧
    (∀ r, found = Some r →
       r ∈ table self ∧ (geodesic_miles (loc r) point <= inject_Z n)%Q) ∧
    (found = None ↔
       ∀ r, r ∈ table self → ¬ (geodesic_miles (loc r) point <= inject_Z n)%Q).
Proof.
  intros Hloc Hn.
  destruct (nearest_to_candidates self loc point (Some n) log Hloc)
    as (found & log' & Hrun & Hnone & Hsome).
  exists found, log'. split; [done|]. split.
  - intros r Hr. apply Hsome in Hr as [Hr _].
    by apply elem_of_candidates_radius in Hr.
  - rewrite Hnone. split.
    + intros Hnil r Hr Hle.
      assert (r ∈ candidates self loc point (Some n)) as Hin
        by by apply elem_of_candidates_radius.
      rewrite Hnil in Hin. by apply elem_of_nil in Hin.
    + intros Hfar.
      destruct (candidates self loc point (Some n)) as [|r rows] eqn:Hrows; [done|].
      assert (r ∈ candidates self loc point (Some n)) as Hin
        by (rewrite Hrows; left).
      apply elem_of_candidates_radius in Hin as [Hr Hle]; [|done].
      by destruct (Hfar r).
Qed.

Lemma nearest_to_within_radius_witness :
  location_field (model (City.objects Sample.cities)) = Some City.location ∧
  7%Z ≠ 0%Z ∧
  ∃ found log',
    @PlaceManager_nearest_to Sample.flat _
      (City.objects Sample.cities) Sample.origin (Some 7%Z) [] = (Return found, log') ∧
    (∀ r, found = Some r →
       r ∈ Sample.cities ∧
       (@geodesic_miles Sample.flat (City.location r) Sample.origin <= inject_Z 7)%Q) ∧
    (found = None ↔
       ∀ r, r ∈ Sample.cities →
         ¬ (@geodesic_miles Sample.flat (City.location r) Sample.origin <= inject_Z 7)%Q).
Proof.
  split; [reflexivity|]. split; [lia|].
  apply (@nearest_to_within_radius Sample.flat City.t
           (City.objects Sample.cities) City.location Sample.origin 7 []);
    [reflexivity | lia].
Defined.

(** C1, where the code departs from it: the docstring of [nearest_to]
    promises [None] when nothing is found within the mileage specified, and
    names only [None] as "no distance limitation"; yet with a radius of zero
    miles the guard [if range_in_miles:] skips the filter, and the nearest
    city is returned although it is seven miles from the point. *)
Lemma nearest_to_radius_zero_unbounded :
  (@PlaceManager_nearest_to Sample.flat _
     (City.objects Sample.cities) Sample.origin (Some 0%Z) []).1
    = Return (Some Sample.paris) ∧
  ¬ (@geodesic_miles Sample.flat (City.location Sample.paris) Sample.origin
       <= inject_Z 0)%Q.
Proof.
  split; [vm_compute; reflexivity|].
  intros Hle. vm_compute in Hle. by apply Hle.
Qed.

(** C2: for every entity with a location field and every query point,
    [nearest_to(point)] without a radius returns normally; the row it
    returns is a row of the entity whose distance to the point is minimal
    among all rows, and it returns [None] exactly when the entity has no
    rows. *)
Theorem nearest_to_unbounded `{GeoBackend} {Row : Type}
    (self : Manager Row) (loc : Row → Point) (point : Point) (log : list string) :
  location_field (model self) = Some loc →
  ∃ found log',
    PlaceManager_nearest_to self point None log = (Return found, log') ∧
    (∀ r, found = Some r →
       r ∈ table self ∧
       ∀ r', r' ∈ table self →
         (geodesic_miles (loc r) point <= geodesic_miles (loc r') point)%Q) ∧
    (found = None ↔ table self = []).
Proof.
  intros Hloc.
  destruct (nearest_to_candidates self loc point None log Hloc)
    as (found & log' & Hrun & Hnone & Hsome).
  exists found, log'. done.
Qed.

Lemma nearest_to_unbounded_witness :
  location_field (model (City.objects Sample.cities)) = Some City.location ∧
  ∃ found log',
    @PlaceManager_nearest_to Sample.flat _
      (City.objects Sample.cities) Sample.origin None [] = (Return found, log') ∧
    (∀ r, found = Some r →
       r ∈ Sample.cities ∧
       ∀ r', r' ∈ Sample.cities →
         (@geodesic_miles Sample.flat (City.location r) Sample.origin
            <= @geodesic_miles Sample.flat (City.location r') Sample.origin)%Q) ∧
    (found = None ↔ Sample.cities = []).
Proof.
  split; [reflexivity|].
  apply (@nearest_to_unbounded Sample.flat City.t
           (City.objects Sample.cities) City.location Sample.origin []).
  reflexivity.
Defined.

(** C3, for the managers that use [PlaceManager]'s own [nearest_to] and
    with the radius other than zero: for every such entity lacking a
    location field and every query point, [nearest_to] called with a radius
    of [n] miles, [n] not zero, logs and raises the field error that says
    the model needs a location field; it returns nothing and no unfiltered
    result. *)
Theorem nearest_to_radius_needs_location `{GeoBackend} {Row : Type}
    (self : Manager Row) (point : Point) (n : Z) (log : list string) :
  location_field (model self) = None →
  n ≠ 0%Z →
  PlaceManager_nearest_to self point (Some n) log =
    (Raise (FieldError (msg_no_location self)), log ++ [msg_no_location self]).
Proof.
  intros Hloc Hn. rewrite nearest_to_unlocated by done.
  unfold truthy_int. by destruct (Z.eqb_spec n 0).
Qed.

Lemma nearest_to_radius_needs_location_witness :
  location_field (model (Region_objects [Sample.idf])) = None ∧
  3%Z ≠ 0%Z ∧
  @PlaceManager_nearest_to Sample.flat _
    (Region_objects [Sample.idf]) Sample.origin (Some 3%Z) [] =
    (Raise (FieldError (msg_no_location (Region_objects [Sample.idf]))),
     [] ++ [msg_no_location (Region_objects [Sample.idf])]).
Proof.
  split; [reflexivity|]. split; [lia|].
  apply (@nearest_to_radius_needs_location Sample.flat Region.t
           (Region_objects [Sample.idf]) Sample.origin 3 []);
    [reflexivity | lia].
Defined.

(** C3 as stated fails on [Country], an entity without a location field:
    its manager overrides [nearest_to] and hands the lookup to [City], so the
    call with a radius of seven miles returns France and raises no field
    error.  (On the region model the call with a radius of zero miles raises
    the type error of the distance annotation, not the field error: the
    guard [if range_in_miles:] takes zero for no radius.) *)
Lemma nearest_to_radius_without_field_error :
  (location_field Country_model = None ∧
   (@CountryManager_nearest_to Sample.flat
      Sample.cities Sample.origin (Some 7%Z) []).1
     = Return (Some Sample.france) ∧
   ¬ ∃ msg,
       (@CountryManager_nearest_to Sample.flat
          Sample.cities Sample.origin (Some 7%Z) []).1
         = Raise (FieldError msg)) ∧
  (location_field (model (Region_objects [Sample.idf])) = None ∧
   (@PlaceManager_nearest_to Sample.flat _
      (Region_objects [Sample.idf]) Sample.origin (Some 0%Z) []).1
     = Raise (TypeError "distance output only available on GeometryFields.") ∧
   ¬ ∃ msg,
       (@PlaceManager_nearest_to Sample.flat _
          (Region_objects [Sample.idf]) Sample.origin (Some 0%Z) []).1
         = Raise (FieldError msg)).
Proof.
  assert ((@CountryManager_nearest_to Sample.flat
             Sample.cities Sample.origin (Some 7%Z) []).1
          = Return (Some Sample.france)) as Hfrance
    by (vm_compute; reflexivity).
  split; (split; [reflexivity|]).
  - split; [exact Hfrance|]. intros [msg Hmsg]. by rewrite Hfrance in Hmsg.
  - split; [reflexivity|]. by intros [msg [=]].
Qed.

(** C8: for every entity, with or without a location field, and every
    query point, [nearest_to(point, 0)] is the same computation as
    [nearest_to(point)]: same result or exception, same log records. *)
Theorem nearest_to_radius_zero `{GeoBackend} {Row : Type}
    (self : Manager Row) (point : Point) :
  PlaceManager_nearest_to self point (Some 0%Z)
    = PlaceManager_nearest_to self point None.
Proof. reflexivity. Qed.

(** ** The country of the nearest city *)

(** C4: for every query point and optional radius, [Country]'s
    [nearest_to] gives what running [City]'s [nearest_to] with the same
    point and radius and then reading that city's country gives; it returns
    [None] exactly when the city lookup returns [None]. *)
Theorem country_nearest_to_refines `{GeoBackend}
    (cities : list City.t) (point : Point) (range_in_miles : option Z)
    (log : list string) :
  CountryManager_nearest_to cities point range_in_miles log
    = country_of_nearest_city cities point range_in_miles log ∧
  (∀ city,
     (PlaceManager_nearest_to (City.objects cities) point range_in_miles log).1
       = Return (Some city) →
     (CountryManager_nearest_to cities point range_in_miles log).1
       = Return (Some (City.country city))) ∧
  ((CountryManager_nearest_to cities point range_in_miles log).1 = Return None ↔
   (PlaceManager_nearest_to (City.objects cities) point range_in_miles log).1
     = Return None).
Proof.
  unfold CountryManager_nearest_to, country_of_nearest_city,
    mbind, py_bind, bind, ret.
  destruct (PlaceManager_nearest_to _ _ _ _) as [[[city|]|e] log']; simpl.
  - split; [done|]. split; [by intros city' [= ->]|split; intros [=]].
  - split; [done|]. split; [intros city' [=]|done].
  - split; [done|]. split; [intros city' [=]|split; intros [=]].
Qed.

(** ** Hierarchies *)

Section Hierarchy.
Import Place.

Lemma hierarchy_unfold (self : Place.t) :
  hierarchy self =
    match parent self with
    | Some p => hierarchy p
    | None => []
    end ++ [self].
Proof.
  funelim (hierarchy self);
    match goal with E : parent _ = _ |- _ => by rewrite E end.
Qed.

(** Induction along the walk to the root. *)
Lemma hierarchy_walk (P : Place.t → list Place.t → Prop) :
  (∀ self, parent self = None → P self [self]) →
  (∀ self p, parent self = Some p → P p (hierarchy p) →
             P self (hierarchy p ++ [self])) →
  ∀ self, P self (hierarchy self).
Proof.
  intros Hroot Hstep self.
  induction self as [self IH] using (induction_ltof1 _ level).
  rewrite hierarchy_unfold. destruct (parent self) as [p|] eqn:E.
  - apply Hstep; [done|]. apply IH. by apply parent_level.
  - by apply Hroot.
Qed.

Lemma hierarchy_last (self : Place.t) : last (hierarchy self) = Some self.
Proof. rewrite hierarchy_unfold. apply last_snoc. Qed.

Lemma hierarchy_root (self : Place.t) :
  ∃ root, head (hierarchy self) = Some root ∧ parent root = None.
Proof.
  apply (hierarchy_walk (λ _ l, ∃ root, head l = Some root ∧ parent root = None)).
  - intros place Hnone. by exists place.
  - intros place p _ (root & Hhead & Hroot). exists root. split; [|done].
    destruct (hierarchy p); [done|]. by simpl in *.
Qed.

Lemma hierarchy_level (self q : Place.t) :
  q ∈ hierarchy self → level q ≤ level self.
Proof.
  revert q.
  apply (hierarchy_walk (λ s l, ∀ q, q ∈ l → level q ≤ level s)).
  - intros place _ q Hq. apply list_elem_of_singleton in Hq as ->. lia.
  - intros place p Hp IH q Hq. apply parent_level in Hp.
    apply elem_of_app in Hq as [Hq|Hq].
    + apply IH in Hq. lia.
    + apply list_elem_of_singleton in Hq as ->. lia.
Qed.

Lemma hierarchy_NoDup (self : Place.t) : NoDup (hierarchy self).
Proof.
  apply (hierarchy_walk (λ _ l, NoDup l)).
  - intros place _. apply NoDup_singleton.
  - intros place p Hp IH. apply NoDup_app. split; [done|]. split.
    + intros q Hq Hq'. apply list_elem_of_singleton in Hq' as ->.
      apply hierarchy_level in Hq. apply parent_level in Hp. lia.
    + apply NoDup_singleton.
Qed.

Lemma hierarchy_linked (self : Place.t) (i : nat) (above below : Place.t) :
  hierarchy self !! i = Some above →
  hierarchy self !! S i = Some below →
  parent below = Some above.
Proof.
  revert i above below.
  apply (hierarchy_walk (λ _ l, ∀ i above below,
           l !! i = Some above → l !! S i = Some below →
           parent below = Some above)).
  - intros place _ i above below _ Hbelow. by destruct i.
  - intros place p Hp IH i above below Habove Hbelow.
    destruct (decide (S i < length (hierarchy p))) as [Hlt|Hge].
    + rewrite lookup_app_l in Habove, Hbelow by lia. by eapply IH.
    + assert (length (hierarchy p) = S i) as Hlen.
      { apply lookup_lt_Some in Hbelow. rewrite length_app in Hbelow.
        simpl in Hbelow. lia. }
      rewrite lookup_app_l in Habove by lia.
      rewrite lookup_app_r, Hlen, Nat.sub_diag in Hbelow by lia.
      injection Hbelow as <-.
      pose proof (hierarchy_last p) as Hlast.
      rewrite last_lookup, Hlen in Hlast. simpl in Hlast. congruence.
Qed.

Lemma hierarchy_city (c : City.t) :
  hierarchy (ACity c) =
    match City.region c with
    | Some r => [ACountry (Region.country r); ARegion r; ACity c]
    | None => [ACity c]
    end.
Proof.
  rewrite hierarchy_unfold. simpl. unfold City.parent.
  destruct (City.region c) as [r|]; [|done]. simpl.
  rewrite hierarchy_unfold. simpl. by rewrite hierarchy_unfold.
Qed.

End Hierarchy.

(** C5: for every place, [hierarchy] is the chain of ancestors from the
    root to the place itself, without gaps or cycles: its last element is
    the place, the parent of each element is the element before it, its
    first element has no parent and no place occurs twice.  For every city,
    the first element is the country at the top of its chain, or the city
    itself when it has no parent, and the last element is the city. *)
Theorem hierarchy_root_to_self :
  (∀ self : Place.t,
     last (Place.hierarchy self) = Some self ∧
     (∀ i above below,
        Place.hierarchy self !! i = Some above →
        Place.hierarchy self !! S i = Some below →
        Place.parent below = Some above) ∧
     (∃ root, head (Place.hierarchy self) = Some root ∧ Place.parent root = None) ∧
     NoDup (Place.hierarchy self)) ∧
  (∀ c : City.t,
     head (Place.hierarchy (Place.ACity c)) =
       Some (match Place.parent (Place.ACity c) with
             | Some (Place.ARegion r) => Place.ACountry (Region.country r)
             | _ => Place.ACity c
             end) ∧
     last (Place.hierarchy (Place.ACity c)) = Some (Place.ACity c)).
Proof.
  split.
  - intros self. split; [apply hierarchy_last|]. split; [apply hierarchy_linked|].
    split; [apply hierarchy_root | apply hierarchy_NoDup].
  - intros c. split; [|apply hierarchy_last].
    rewrite hierarchy_city. simpl. unfold City.parent.
    by destruct (City.region c).
Qed.

(** C10: for every city, [hierarchy] is the country of its region, its
    region and the city, or the city alone when it has no region; no
    subregion occurs in it, whatever the city's subregion is. *)
Theorem city_hierarchy_skips_subregion (c : City.t) :
  Place.hierarchy (Place.ACity c) =
    match City.region c with
    | Some r => [Place.ACountry (Region.country r); Place.ARegion r; Place.ACity c]
    | None => [Place.ACity c]
    end ∧
  ∀ s : Subregion.t, Place.ASubregion s ∉ Place.hierarchy (Place.ACity c).
Proof.
  split; [apply hierarchy_city|].
  intros s. rewrite hierarchy_city.
  destruct (City.region c); rewrite !elem_of_cons, elem_of_nil; intuition discriminate.
Qed.

(** ** Full codes *)

(** C6: the full code of a region is its country's code, a dot and the
    region's code; the full code of a subregion is the country's code, the
    region's code and the subregion's code, in this order, joined by dots. *)
Theorem full_code_dotted :
  (∀ r : Region.t,
     Region.full_code r
       = Country.code (Region.country r) +:+ "." +:+ Region.code r) ∧
  (∀ s : Subregion.t,
     Subregion.full_code s
       = Country.code (Region.country (Subregion.region s)) +:+ "." +:+
         Region.code (Subregion.region s) +:+ "." +:+ Subregion.code s).
Proof. split; reflexivity. Qed.

(** ** Full-code indexes *)

Section DictComprehension.
Context {Row : Type} (key : Row → string).
Implicit Types (rows : list Row) (r : Row) (k : string).

Lemma dict_comprehension_snoc rows r :
  dict_comprehension key (rows ++ [r])
    = <[key r := r]> (dict_comprehension key rows).
Proof. unfold dict_comprehension. by rewrite foldl_app. Qed.

Lemma dict_comprehension_dom rows :
  dom (dict_comprehension key rows) = list_to_set (key <$> rows).
Proof.
  induction rows as [|r rows IH] using rev_ind.
  - apply dom_empty_L.
  - rewrite dict_comprehension_snoc, dom_insert_L, IH, fmap_snoc,
      list_to_set_snoc_L. apply (comm_L (∪)).
Qed.

Lemma dict_comprehension_lookup rows k :
  dict_comprehension key rows !! k = last (filter (λ r, key r = k) rows).
Proof.
  induction rows as [|r rows IH] using rev_ind; [done|].
  rewrite dict_comprehension_snoc, filter_app.
  destruct (decide (key r = k)) as [<-|Hne].
  - rewrite lookup_insert_eq, filter_cons_True, filter_nil by done.
    by rewrite last_snoc.
  - rewrite lookup_insert_ne, filter_cons_False by done.
    by rewrite filter_nil, app_nil_r.
Qed.

Lemma dict_comprehension_size rows :
  size (dict_comprehension key rows) = length (remove_dups (key <$> rows)).
Proof.
  rewrite <- size_dom, dict_comprehension_dom.
  rewrite <- (size_list_to_set (C := gset string) (remove_dups _))
    by apply NoDup_remove_dups.
  f_equal. apply set_eq. intros k.
  by rewrite !elem_of_list_to_set, elem_of_remove_dups.
Qed.

Lemma dict_comprehension_distinct rows :
  NoDup (key <$> rows) →
  size (dict_comprehension key rows) = length rows ∧
  ∀ r, r ∈ rows → dict_comprehension key rows !! key r = Some r.
Proof.
  intros Hdistinct. split.
  - rewrite <- size_dom, dict_comprehension_dom, size_list_to_set by done.
    apply length_fmap.
  - induction rows as [|r' rows IH] using rev_ind; [by intros r ?%elem_of_nil|].
    rewrite fmap_snoc in Hdistinct.
    apply NoDup_app in Hdistinct as (Hrows & Hfresh & _).
    intros r Hr. rewrite dict_comprehension_snoc.
    apply elem_of_app in Hr as [Hr|Hr].
    + rewrite lookup_insert_ne; [by apply IH|].
      intros Heq. apply (Hfresh (key r)).
      * apply list_elem_of_fmap. by exists r.
      * rewrite Heq. apply list_elem_of_singleton. done.
    + apply list_elem_of_singleton in Hr as ->. apply lookup_insert_eq.
Qed.

Lemma dict_comprehension_full_index rows :
  full_index_of key rows (dict_comprehension key rows).
Proof.
  split; [apply dict_comprehension_dom|].
  split; [apply dict_comprehension_size|].
  split; [apply dict_comprehension_lookup | apply dict_comprehension_distinct].
Qed.

Lemma dict_comprehension_nonempty rows :
  rows ≠ [] → dict_comprehension key rows ≠ ∅.
Proof.
  destruct rows as [|r rows _] using rev_ind; [done|]. intros _.
  rewrite dict_comprehension_snoc. apply insert_non_empty.
Qed.

Lemma queryset_or_supplied (queryset : option (QuerySet Row)) (other : QuerySet Row) :
  (∀ qs, queryset = Some qs → qs_rows qs ≠ []) →
  qs_rows (queryset_or queryset other)
    = qs_rows (default other queryset).
Proof.
  intros Hrows. destruct queryset as [qs|]; [|done].
  specialize (Hrows qs eq_refl). unfold queryset_or, truthy_seq. simpl.
  by destruct (qs_rows qs) eqn:Hqs.
Qed.

Lemma queryset_or_empty (qs other : QuerySet Row) :
  qs_rows qs = [] → queryset_or (Some qs) other = other.
Proof. intros Hnil. unfold queryset_or. by rewrite Hnil. Qed.

End DictComprehension.

(** C7, with the base query not empty and the count taken over distinct
    full codes: for every base query that has at least one row (or all rows
    when none is supplied), the [Region] and [Subregion] [get_full_index]
    builders return a mapping whose keys are exactly the [full_code()]
    values of the rows, whose size is the number of distinct full codes, and
    which maps each full code to the last row that has it; when the rows'
    full codes are pairwise distinct, its size is the number of rows and it
    maps the full code of each row to that row. *)
Theorem get_full_index_covers
    (regions : Manager Region.t) (region_query : option (QuerySet Region.t))
    (subregions : Manager Subregion.t)
    (subregion_query : option (QuerySet Subregion.t)) :
  (∀ qs, region_query = Some qs → qs_rows qs ≠ []) →
  (∀ qs, subregion_query = Some qs → qs_rows qs ≠ []) →
  full_index_of Region.full_code (input_rows regions region_query)
    (RegionManager_get_full_index regions region_query) ∧
  full_index_of Subregion.full_code (input_rows subregions subregion_query)
    (SubregionManager_get_full_index subregions subregion_query).
Proof.
  intros Hregions Hsubregions.
  unfold RegionManager_get_full_index, SubregionManager_get_full_index,
    select_related.
  rewrite !queryset_or_supplied by done.
  split.
  - destruct region_query; apply dict_comprehension_full_index.
  - destruct subregion_query; apply dict_comprehension_full_index.
Qed.

Lemma get_full_index_covers_witness :
  (∀ qs, Some {| qs_model := Region.model; qs_rows := [Sample.bretagne] |} = Some qs →
         qs_rows qs ≠ []) ∧
  (∀ qs, @None (QuerySet Subregion.t) = Some qs → qs_rows qs ≠ []) ∧
  full_index_of Region.full_code [Sample.bretagne]
    (RegionManager_get_full_index
       (Region_objects [Sample.idf; Sample.bretagne])
       (Some {| qs_model := Region.model; qs_rows := [Sample.bretagne] |})) ∧
  full_index_of Subregion.full_code [Sample.paris_dept]
    (SubregionManager_get_full_index (Subregion_objects [Sample.paris_dept]) None).
Proof.
  split; [by intros qs [= <-]|]. split; [by intros qs [=]|].
  apply (get_full_index_covers
           (Region_objects [Sample.idf; Sample.bretagne])
           (Some {| qs_model := Region.model; qs_rows := [Sample.bretagne] |})
           (Subregion_objects [Sample.paris_dept]) None);
    [by intros qs [= <-] | by intros qs [=]].
Defined.

(** C7 as stated fails twice.  Two region rows with the same full code give
    an index of one entry, and the first row is not what its full code leads
    to; a base query without rows gives the index of the whole table instead
    of a mapping of size zero. *)
Lemma get_full_index_size_differs :
  (length (input_rows (Region_objects [Sample.idf; Sample.idf_again]) None) = 2 ∧
   size (RegionManager_get_full_index
           (Region_objects [Sample.idf; Sample.idf_again]) None) = 1 ∧
   RegionManager_get_full_index
     (Region_objects [Sample.idf; Sample.idf_again]) None
     !! Region.full_code Sample.idf = Some Sample.idf_again ∧
   Sample.idf_again ≠ Sample.idf) ∧
  (length (input_rows (Region_objects [Sample.idf; Sample.bretagne])
             (Some {| qs_model := Region.model; qs_rows := [] |})) = 0 ∧
   size (RegionManager_get_full_index
           (Region_objects [Sample.idf; Sample.bretagne])
           (Some {| qs_model := Region.model; qs_rows := [] |})) = 2).
Proof.
  split; [|split; vm_compute; reflexivity].
  split; [reflexivity|]. split; [vm_compute; reflexivity|].
  split; [vm_compute; reflexivity | discriminate].
Qed.

(** C9: for every call to [get_full_index] ([Region] or [Subregion]) whose
    base query has no rows, the result is the index built over all rows of
    the entity, the same as when no base query is supplied; unless the table
    itself is empty, it is not the empty mapping. *)
Theorem get_full_index_empty_query
    (regions : Manager Region.t) (region_query : QuerySet Region.t)
    (subregions : Manager Subregion.t) (subregion_query : QuerySet Subregion.t) :
  qs_rows region_query = [] →
  qs_rows subregion_query = [] →
  (RegionManager_get_full_index regions (Some region_query)
     = RegionManager_get_full_index regions None ∧
   RegionManager_get_full_index regions (Some region_query)
     = dict_comprehension Region.full_code (table regions) ∧
   (table regions ≠ [] →
    RegionManager_get_full_index regions (Some region_query) ≠ ∅)) ∧
  (SubregionManager_get_full_index subregions (Some subregion_query)
     = SubregionManager_get_full_index subregions None ∧
   SubregionManager_get_full_index subregions (Some subregion_query)
     = dict_comprehension Subregion.full_code (table subregions) ∧
   (table subregions ≠ [] →
    SubregionManager_get_full_index subregions (Some subregion_query) ≠ ∅)).
Proof.
  intros Hregions Hsubregions.
  unfold RegionManager_get_full_index, SubregionManager_get_full_index,
    select_related.
  rewrite !queryset_or_empty by done. simpl.
  split; (split; [done|]); (split; [done|]); apply dict_comprehension_nonempty.
Qed.

Lemma get_full_index_empty_query_witness :
  qs_rows {| qs_model := Region.model; qs_rows := [] |} = [] ∧
  qs_rows {| qs_model := Subregion.model; qs_rows := [] |} = [] ∧
  RegionManager_get_full_index
    (Region_objects [Sample.idf; Sample.bretagne])
    (Some {| qs_model := Region.model; qs_rows := [] |})
    = RegionManager_get_full_index (Region_objects [Sample.idf; Sample.bretagne]) None ∧
  SubregionManager_get_full_index
    (Subregion_objects [Sample.paris_dept])
    (Some {| qs_model := Subregion.model; qs_rows := [] |})
    = SubregionManager_get_full_index (Subregion_objects [Sample.paris_dept]) None.
Proof.
  split; [reflexivity|]. split; [reflexivity|].
  pose proof (get_full_index_empty_query
                (Region_objects [Sample.idf; Sample.bretagne])
                {| qs_model := Region.model; qs_rows := [] |}
                (Subregion_objects [Sample.paris_dept])
                {| qs_model := Subregion.model; qs_rows := [] |}
                eq_refl eq_refl) as [[Hr _] [Hs _]].
  exact (conj Hr Hs).
Defined.

(** * Further properties of the module *)

(** ** Nearest-place queries: radius, log and failures *)

(** X1: on a model with a location and with a radius other than zero, the
    row [nearest_to] returns is the nearest of the rows within the radius. *)
Theorem nearest_to_radius_nearest `{GeoBackend} {Row : Type}
    (self : Manager Row) (loc : Row → Point) (point : Point) (n : Z)
    (log : list string) :
  location_field (model self) = Some loc →
  n ≠ 0%Z →
  ∃ found log',
    PlaceManager_nearest_to self point (Some n) log = (Return found, log') ∧
    ∀ r, found = Some r →
      ∀ r', r' ∈ table self →
        (geodesic_miles (loc r') point <= inject_Z n)%Q →
        (geodesic_miles (loc r) point <= geodesic_miles (loc r') point)%Q.
Proof.
  intros Hloc Hn.
  destruct (nearest_to_candidates self loc point (Some n) log Hloc)
    as (found & log' & Hrun & _ & Hsome).
  exists found, log'. split; [done|].
  intros r Hr r' Hr' Hle. apply (Hsome r Hr).
  by apply elem_of_candidates_radius.
Qed.

Lemma nearest_to_radius_nearest_witness :
  location_field (model (City.objects Sample.cities)) = Some City.location ∧
  25%Z ≠ 0%Z ∧
  ∃ found log',
    @PlaceManager_nearest_to Sample.flat _
      (City.objects Sample.cities) Sample.origin (Some 25%Z) [] = (Return found, log') ∧
    ∀ r, found = Some r →
      ∀ r', r' ∈ Sample.cities →
        (@geodesic_miles Sample.flat (City.location r') Sample.origin <= inject_Z 25)%Q →
        (@geodesic_miles Sample.flat (City.location r) Sample.origin
           <= @geodesic_miles Sample.flat (City.location r') Sample.origin)%Q.
Proof.
  split; [reflexivity|]. split; [lia|].
  apply (@nearest_to_radius_nearest Sample.flat City.t
           (City.objects Sample.cities) City.location Sample.origin 25 []);
    [reflexivity | lia].
Defined.

(** X2: on a model with a location, [nearest_to] leaves the log as it was
    when it finds a row, and adds exactly one record, the one saying that
    there is no candidate, when it finds none; earlier records are kept. *)
Theorem nearest_to_log `{GeoBackend} {Row : Type}
    (self : Manager Row) (loc : Row → Point) (point : Point)
    (range_in_miles : option Z) (log : list string) :
  location_field (model self) = Some loc →
  ∃ found,
    PlaceManager_nearest_to self point range_in_miles log =
      (Return found,
       match found with
       | Some _ => log
       | None => log ++ [msg_no_candidates point range_in_miles]
       end).
Proof.
  intros Hloc. rewrite (nearest_to_located _ loc) by done.
  destruct (order_by_distance _) as [|first rest];
    [by exists None | by exists (Some first.1)].
Qed.

Lemma nearest_to_log_witness :
  location_field (model (City.objects Sample.cities)) = Some City.location ∧
  ∃ found,
    @PlaceManager_nearest_to Sample.flat _
      (City.objects Sample.cities) Sample.origin (Some 5%Z) ["earlier"] =
      (Return found,
       match found with
       | Some _ => ["earlier"]
       | None => ["earlier"] ++ [@msg_no_candidates Sample.flat Sample.origin (Some 5%Z)]
       end).
Proof.
  split; [reflexivity|].
  apply (@nearest_to_log Sample.flat City.t
           (City.objects Sample.cities) City.location Sample.origin (Some 5%Z)
           ["earlier"]).
  reflexivity.
Defined.

(** X3: on a model without a location field [nearest_to] never returns.
    Without a radius, or with a radius of zero, the type error of the
    distance annotation is re-raised as it came, after one record is logged;
    in every case exactly one record is added to the log. *)
Theorem nearest_to_unlocated_raises `{GeoBackend} {Row : Type}
    (self : Manager Row) (point : Point) (range_in_miles : option Z)
    (log : list string) :
  location_field (model self) = None →
  (∃ e record,
     PlaceManager_nearest_to self point range_in_miles log
       = (Raise e, log ++ [record])) ∧
  (truthy_int range_in_miles = false →
   PlaceManager_nearest_to self point range_in_miles log =
     (Raise (TypeError "distance output only available on GeometryFields."),
      log ++ [msg_incompatible self])).
Proof.
  intros Hloc. rewrite nearest_to_unlocated by done.
  destruct (truthy_int range_in_miles); (split; [eexists _, _; reflexivity|]); done.
Qed.

Lemma nearest_to_unlocated_raises_witness :
  location_field (model (Subregion_objects [Sample.paris_dept])) = None ∧
  (∃ e record,
     @PlaceManager_nearest_to Sample.flat _
       (Subregion_objects [Sample.paris_dept]) Sample.origin None ["earlier"]
       = (Raise e, ["earlier"] ++ [record])) ∧
  (truthy_int None = false →
   @PlaceManager_nearest_to Sample.flat _
     (Subregion_objects [Sample.paris_dept]) Sample.origin None ["earlier"] =
     (Raise (TypeError "distance output only available on GeometryFields."),
      ["earlier"] ++ [msg_incompatible (Subregion_objects [Sample.paris_dept])])).
Proof.
  split; [reflexivity|].
  apply (@nearest_to_unlocated_raises Sample.flat Subregion.t
           (Subregion_objects [Sample.paris_dept]) Sample.origin None ["earlier"]).
  reflexivity.
Defined.

Section RadiusProperties.
Context `{GeoBackend}.
Context {Row : Type}.
Implicit Types (self : Manager Row) (point : Point) (log : list string).

Lemma candidates_table self loc point range_in_miles r :
  r ∈ candidates self loc point range_in_miles → r ∈ table self.
Proof.
  unfold candidates, if_int. destruct range_in_miles as [n|]; [|done].
  destruct (truthy_int (Some n)); [|done].
  rewrite !list_elem_of_In, filter_In. tauto.
Qed.

(** A query that finds a row is one whose candidates include a row. *)
Lemma nearest_to_finds self loc point range_in_miles log r :
  location_field (model self) = Some loc →
  r ∈ candidates self loc point range_in_miles →
  ∃ r' log',
    PlaceManager_nearest_to self point range_in_miles log = (Return (Some r'), log') ∧
    r' ∈ candidates self loc point range_in_miles ∧
    (geodesic_miles (loc r') point <= geodesic_miles (loc r) point)%Q.
Proof.
  intros Hloc Hr.
  destruct (nearest_to_candidates self loc point range_in_miles log Hloc)
    as ([r'|] & log' & Hrun & Hnone & Hsome).
  - exists r', log'. destruct (Hsome r' eq_refl) as [Hr' Hmin]. eauto.
  - rewrite (proj1 Hnone eq_refl) in Hr. by apply elem_of_nil in Hr.
Qed.

Lemma nearest_to_found self loc point range_in_miles log r log' :
  location_field (model self) = Some loc →
  PlaceManager_nearest_to self point range_in_miles log = (Return (Some r), log') →
  r ∈ candidates self loc point range_in_miles ∧
  ∀ r', r' ∈ candidates self loc point range_in_miles →
    (geodesic_miles (loc r) point <= geodesic_miles (loc r') point)%Q.
Proof.
  intros Hloc Hrun.
  destruct (nearest_to_candidates self loc point range_in_miles log Hloc)
    as (found & log'' & Hrun' & _ & Hsome).
  rewrite Hrun in Hrun'. injection Hrun' as <- <-. by apply Hsome.
Qed.

End RadiusProperties.

(** X4: a radius that reaches the nearest row does not change the
    distance of the answer.  On a model with a location, when the query
    without a radius finds a row that lies within [n] miles, [n] not zero,
    the query with that radius finds a row too, at the same distance. *)
Theorem nearest_to_radius_agrees `{GeoBackend} {Row : Type}
    (self : Manager Row) (loc : Row → Point) (point : Point) (n : Z)
    (r : Row) (log log1 : list string) :
  location_field (model self) = Some loc →
  n ≠ 0%Z →
  PlaceManager_nearest_to self point None log = (Return (Some r), log1) →
  (geodesic_miles (loc r) point <= inject_Z n)%Q →
  ∃ r' log2,
    PlaceManager_nearest_to self point (Some n) log = (Return (Some r'), log2) ∧
    (geodesic_miles (loc r') point == geodesic_miles (loc r) point)%Q.
Proof.
  intros Hloc Hn Hrun Hle.
  apply (nearest_to_found _ loc) in Hrun as [Hr Hmin]; [|done].
  assert (r ∈ candidates self loc point (Some n)) as Hin
    by by apply elem_of_candidates_radius.
  destruct (nearest_to_finds self loc point (Some n) log r Hloc Hin)
    as (r' & log2 & Hrun' & Hr' & Hnear).
  exists r', log2. split; [done|].
  apply Qle_antisym; [done|]. apply Hmin. by eapply candidates_table.
Qed.

Lemma nearest_to_radius_agrees_witness :
  location_field (model (City.objects Sample.cities)) = Some City.location ∧
  7%Z ≠ 0%Z ∧
  @PlaceManager_nearest_to Sample.flat _
    (City.objects Sample.cities) Sample.origin None [] = (Return (Some Sample.paris), []) ∧
  (@geodesic_miles Sample.flat (City.location Sample.paris) Sample.origin <= inject_Z 7)%Q ∧
  ∃ r' log2,
    @PlaceManager_nearest_to Sample.flat _
      (City.objects Sample.cities) Sample.origin (Some 7%Z) [] = (Return (Some r'), log2) ∧
    (@geodesic_miles Sample.flat (City.location r') Sample.origin
       == @geodesic_miles Sample.flat (City.location Sample.paris) Sample.origin)%Q.
Proof.
  split; [reflexivity|]. split; [lia|]. split; [vm_compute; reflexivity|].
  split; [vm_compute; discriminate|].
  apply (@nearest_to_radius_agrees Sample.flat City.t
           (City.objects Sample.cities) City.location Sample.origin 7
           Sample.paris [] []);
    [reflexivity | lia | vm_compute; reflexivity | vm_compute; discriminate].
Defined.

(** X5: widening the radius never loses the answer.  On a model with a
    location, when the query with a radius of [n] miles finds a row, the
    query with a larger radius [m] finds one as well, no farther away
    ([n] and [m] not zero). *)
Theorem nearest_to_radius_widen `{GeoBackend} {Row : Type}
    (self : Manager Row) (loc : Row → Point) (point : Point) (n m : Z)
    (r : Row) (log log1 : list string) :
  location_field (model self) = Some loc →
  n ≠ 0%Z → m ≠ 0%Z → (n ≤ m)%Z →
  PlaceManager_nearest_to self point (Some n) log = (Return (Some r), log1) →
  ∃ r' log2,
    PlaceManager_nearest_to self point (Some m) log = (Return (Some r'), log2) ∧
    (geodesic_miles (loc r') point <= geodesic_miles (loc r) point)%Q.
Proof.
  intros Hloc Hn Hm Hnm Hrun.
  apply (nearest_to_found _ loc) in Hrun as [Hr _]; [|done].
  apply elem_of_candidates_radius in Hr as [Hr Hle]; [|done].
  assert (r ∈ candidates self loc point (Some m)) as Hin.
  { apply elem_of_candidates_radius; [done|]. split; [done|].
    eapply Qle_trans; [done|]. by rewrite <- Zle_Qle. }
  destruct (nearest_to_finds self loc point (Some m) log r Hloc Hin)
    as (r' & log2 & Hrun' & _ & Hnear).
  by exists r', log2.
Qed.

Lemma nearest_to_radius_widen_witness :
  location_field (model (City.objects Sample.cities)) = Some City.location ∧
  7%Z ≠ 0%Z ∧ 30%Z ≠ 0%Z ∧ (7 ≤ 30)%Z ∧
  @PlaceManager_nearest_to Sample.flat _
    (City.objects Sample.cities) Sample.origin (Some 7%Z) [] = (Return (Some Sample.paris), []) ∧
  ∃ r' log2,
    @PlaceManager_nearest_to Sample.flat _
      (City.objects Sample.cities) Sample.origin (Some 30%Z) [] = (Return (Some r'), log2) ∧
    (@geodesic_miles Sample.flat (City.location r') Sample.origin
       <= @geodesic_miles Sample.flat (City.location Sample.paris) Sample.origin)%Q.
Proof.
  split; [reflexivity|]. split; [lia|]. split; [lia|]. split; [lia|].
  split; [vm_compute; reflexivity|].
  apply (@nearest_to_radius_widen Sample.flat City.t
           (City.objects Sample.cities) City.location Sample.origin 7 30
           Sample.paris [] []);
    [reflexivity | lia | lia | lia | vm_compute; reflexivity].
Defined.

(** X6: when distances are never negative, a negative radius excludes
    every row: on a model with a location the query returns [None] and logs
    the record that says there is no candidate. *)
Theorem nearest_to_negative_radius `{GeoBackend} {Row : Type}
    (self : Manager Row) (loc : Row → Point) (point : Point) (n : Z)
    (log : list string) :
  location_field (model self) = Some loc →
  (∀ p q, (0 <= geodesic_miles p q)%Q) →
  (n < 0)%Z →
  PlaceManager_nearest_to self point (Some n) log =
    (Return None, log ++ [msg_no_candidates point (Some n)]).
Proof.
  intros Hloc Hpos Hn. rewrite (nearest_to_located _ loc) by done.
  destruct (candidates self loc point (Some n)) as [|r rows] eqn:Hrows; [done|].
  assert (r ∈ candidates self loc point (Some n)) as Hin by (rewrite Hrows; left).
  apply elem_of_candidates_radius in Hin as [_ Hle]; [|lia].
  exfalso. apply (Qle_not_lt _ _ (Qle_trans _ _ _ (Hpos (loc r) point) Hle)).
  change (inject_Z n < inject_Z 0)%Q. by rewrite <- Zlt_Qlt.
Qed.

Lemma nearest_to_negative_radius_witness :
  location_field (model (City.objects Sample.cities)) = Some City.location ∧
  (∀ p q, (0 <= @geodesic_miles Sample.flat p q)%Q) ∧
  (-3 < 0)%Z ∧
  @PlaceManager_nearest_to Sample.flat _
    (City.objects Sample.cities) Sample.origin (Some (-3)%Z) [] =
    (Return None, [] ++ [@msg_no_candidates Sample.flat Sample.origin (Some (-3)%Z)]).
Proof.
  assert (∀ p q, (0 <= @geodesic_miles Sample.flat p q)%Q) as Hpos.
  { intros p q. change (0 + 0 <= Qabs (x p - x q) + Qabs (y p - y q))%Q.
    apply Qplus_le_compat; apply Qabs_nonneg. }
  split; [reflexivity|]. split; [exact Hpos|]. split; [lia|].
  apply (@nearest_to_negative_radius Sample.flat City.t
           (City.objects Sample.cities) City.location Sample.origin (-3) []);
    [reflexivity | exact Hpos | lia].
Defined.

(** ** The country lookup *)

(** X7: [Country]'s [nearest_to] never raises, with or without a radius,
    although [Country] has no location field.  A country it returns is the
    country of a candidate city nearest to the point, and it returns [None]
    exactly when there is no candidate city. *)
Theorem country_nearest_to_total `{GeoBackend}
    (cities : list City.t) (point : Point) (range_in_miles : option Z)
    (log : list string) :
  ∃ found log',
    CountryManager_nearest_to cities point range_in_miles log = (Return found, log') ∧
    (∀ k, found = Some k →
       ∃ city, city ∈ cities ∧ City.country city = k ∧
         ∀ city', city' ∈ candidates (City.objects cities) City.location point
                             range_in_miles →
           (geodesic_miles (City.location city) point
              <= geodesic_miles (City.location city') point)%Q) ∧
    (found = None ↔
       candidates (City.objects cities) City.location point range_in_miles = []).
Proof.
  destruct (nearest_to_candidates (City.objects cities) City.location point
              range_in_miles log eq_refl)
    as (found & log' & Hrun & Hnone & Hsome).
  exists (City.country <$> found), log'. split; [|split].
  - unfold CountryManager_nearest_to, mbind, py_bind, bind, ret.
    rewrite Hrun. by destruct found.
  - intros k Hk. destruct found as [city|]; [|done]. injection Hk as <-.
    destruct (Hsome city eq_refl) as [Hin Hmin].
    exists city. split; [|done]. by apply candidates_table in Hin.
  - rewrite <- Hnone. by destruct found.
Qed.

(** ** Hierarchies and URLs *)

Lemma parent_is_parent_model (self p : Place.t) :
  Place.parent self = Some p → parent_model p.
Proof.
  destruct self as [c|r|s|c|d|pc]; simpl; try by intros [= <-].
  unfold City.parent. by destruct (City.region c); intros [= <-].
Qed.

Lemma level_bound (self : Place.t) : Place.level self ≤ 3.
Proof. destruct self; simpl; lia. Qed.

Lemma hierarchy_nonempty (self : Place.t) : Place.hierarchy self ≠ [].
Proof.
  rewrite hierarchy_unfold. intros Hnil.
  by apply app_eq_nil in Hnil as [_ [=]].
Qed.

Lemma string_app_assoc (a b c : string) : (a +:+ b) +:+ c = a +:+ b +:+ c.
Proof.
  induction a as [|ch a IH]; [done|].
  change (String ch ((a +:+ b) +:+ c) = String ch (a +:+ b +:+ c)).
  by rewrite IH.
Qed.

Lemma join_snoc (sep : string) (parts : list string) (s : string) :
  parts ≠ [] → join sep (parts ++ [s]) = join sep parts +:+ sep +:+ s.
Proof.
  induction parts as [|a [|b parts] IH]; [done|done|]. intros _.
  change (a +:+ sep +:+ join sep ((b :: parts) ++ [s])
          = (a +:+ sep +:+ join sep (b :: parts)) +:+ sep +:+ s).
  rewrite IH by done. by rewrite !string_app_assoc.
Qed.

(** X8: a hierarchy is never empty and never longer than four places; it
    has at most one place more than the schema level of the place it is
    taken from. *)
Theorem hierarchy_length (self : Place.t) :
  1 ≤ length (Place.hierarchy self) ∧
  length (Place.hierarchy self) ≤ S (Place.level self) ∧
  length (Place.hierarchy self) ≤ 4.
Proof.
  assert (1 ≤ length (Place.hierarchy self) ≤ S (Place.level self)) as [Hlo Hhi].
  { apply (hierarchy_walk (λ s l, 1 ≤ length l ≤ S (Place.level s))).
    - intros place _. simpl. lia.
    - intros place p Hp IH. apply Place.parent_level in Hp.
      rewrite length_app. simpl. lia. }
  pose proof (level_bound self). lia.
Qed.

(** X9: only countries, regions and cities are ever ancestors: a hierarchy
    is the place itself preceded by rows of these three models, so a
    subregion, a district or a postal code occurs in a hierarchy only as its
    last element. *)
Theorem hierarchy_ancestors (self : Place.t) :
  ∃ ancestors,
    Place.hierarchy self = ancestors ++ [self] ∧
    Forall parent_model ancestors.
Proof.
  apply (hierarchy_walk (λ s l, ∃ ancestors,
           l = ancestors ++ [s] ∧ Forall parent_model ancestors)).
  - intros place _. by exists [].
  - intros place p Hp (ancestors & -> & Hanc).
    exists (ancestors ++ [p]). split; [done|].
    apply Forall_app. split; [done|].
    apply Forall_singleton. by eapply parent_is_parent_model.
Qed.

(** X10: the URL of a place is the URL of its parent, a slash and the
    place's own slug; the URL of a place without a parent is its slug. *)
Theorem get_absolute_url_parent (self : Place.t) :
  Place.get_absolute_url self =
    match Place.parent self with
    | Some p => Place.get_absolute_url p +:+ "/" +:+ Place.slug self
    | None => Place.slug self
    end.
Proof.
  unfold Place.get_absolute_url. rewrite hierarchy_unfold.
  destruct (Place.parent self) as [p|]; [|done].
  rewrite fmap_app. simpl. apply join_snoc.
  pose proof (hierarchy_nonempty p). by destruct (Place.hierarchy p).
Qed.

(** ** Full codes as keys *)

Lemma append_cons (c : Ascii.ascii) (a s : string) :
  String c a +:+ s = String c (a +:+ s).
Proof. reflexivity. Qed.

Lemma append_nil_l (s : string) : "" +:+ s = s.
Proof. reflexivity. Qed.

(** A dot-free prefix is read back from a dotted text. *)
Lemma dotted_inj (a a' b b' : string) :
  dot_free a = true → dot_free a' = true →
  a +:+ "." +:+ b = a' +:+ "." +:+ b' →
  a = a' ∧ b = b'.
Proof.
  revert a'. induction a as [|ch a IH]; intros [|ch' a'] Ha Ha' Heq;
    rewrite ?append_cons, ?append_nil_l in Heq.
  - by injection Heq as ->.
  - injection Heq as <- _. by vm_compute in Ha'.
  - injection Heq as -> _. by vm_compute in Ha.
  - injection Heq as <- Heq.
    apply andb_prop in Ha as [_ Ha]. apply andb_prop in Ha' as [_ Ha'].
    destruct (IH a' Ha Ha' Heq) as [-> ->]. done.
Qed.

(** X11: two regions whose country codes contain no dot have the same full
    code only if they have the same country code and the same region code. *)
Theorem region_full_code_inj (r r' : Region.t) :
  dot_free (Country.code (Region.country r)) = true →
  dot_free (Country.code (Region.country r')) = true →
  Region.full_code r = Region.full_code r' →
  Country.code (Region.country r) = Country.code (Region.country r') ∧
  Region.code r = Region.code r'.
Proof. intros Hr Hr' Heq. by apply dotted_inj. Qed.

Lemma region_full_code_inj_witness :
  dot_free (Country.code (Region.country Sample.idf)) = true ∧
  dot_free (Country.code (Region.country Sample.idf_again)) = true ∧
  Region.full_code Sample.idf = Region.full_code Sample.idf_again ∧
  Country.code (Region.country Sample.idf)
    = Country.code (Region.country Sample.idf_again) ∧
  Region.code Sample.idf = Region.code Sample.idf_again.
Proof.
  split; [reflexivity|]. split; [reflexivity|]. split; [reflexivity|].
  apply (region_full_code_inj Sample.idf Sample.idf_again); reflexivity.
Defined.

(** X12: two subregions whose country codes and region codes contain no dot
    have the same full code only if their country codes, their region codes
    and their own codes are the same. *)
Theorem subregion_full_code_inj (s s' : Subregion.t) :
  dot_free (Country.code (Region.country (Subregion.region s))) = true →
  dot_free (Country.code (Region.country (Subregion.region s'))) = true →
  dot_free (Region.code (Subregion.region s)) = true →
  dot_free (Region.code (Subregion.region s')) = true →
  Subregion.full_code s = Subregion.full_code s' →
  Country.code (Region.country (Subregion.region s))
    = Country.code (Region.country (Subregion.region s')) ∧
  Region.code (Subregion.region s) = Region.code (Subregion.region s') ∧
  Subregion.code s = Subregion.code s'.
Proof.
  intros Hc Hc' Hr Hr' Heq.
  apply dotted_inj in Heq as [Hcountry Heq]; [|done..].
  apply dotted_inj in Heq as [Hregion Hcode]; done.
Qed.

Lemma subregion_full_code_inj_witness :
  dot_free (Country.code (Region.country (Subregion.region Sample.paris_dept))) = true ∧
  dot_free (Country.code (Region.country (Subregion.region Sample.paris_dept_again))) = true ∧
  dot_free (Region.code (Subregion.region Sample.paris_dept)) = true ∧
  dot_free (Region.code (Subregion.region Sample.paris_dept_again)) = true ∧
  Subregion.full_code Sample.paris_dept = Subregion.full_code Sample.paris_dept_again ∧
  Country.code (Region.country (Subregion.region Sample.paris_dept))
    = Country.code (Region.country (Subregion.region Sample.paris_dept_again)) ∧
  Region.code (Subregion.region Sample.paris_dept)
    = Region.code (Subregion.region Sample.paris_dept_again) ∧
  Subregion.code Sample.paris_dept = Subregion.code Sample.paris_dept_again.
Proof.
  do 5 (split; [reflexivity|]).
  apply (subregion_full_code_inj Sample.paris_dept Sample.paris_dept_again);
    reflexivity.
Defined.

(** X13: the full code of a subregion is the full code of its region, a
    dot and the subregion's own code. *)
Theorem subregion_full_code_extends (s : Subregion.t) :
  Subregion.full_code s
    = Region.full_code (Subregion.region s) +:+ "." +:+ Subregion.code s.
Proof.
  unfold Subregion.full_code, Region.full_code, Subregion.parent, Region.parent.
  simpl. by rewrite string_app_assoc.
Qed.

(** X14: when the country codes of the indexed regions contain no dot and
    no two of these rows agree on both country code and region code, the
    region index has one entry per row and every row is found under its full
    code. *)
Theorem region_index_complete
    (self : Manager Region.t) (queryset : option (QuerySet Region.t)) :
  (∀ r, r ∈ qs_rows (queryset_or queryset (all self)) →
        dot_free (Country.code (Region.country r)) = true) →
  NoDup ((λ r, (Country.code (Region.country r), Region.code r))
           <$> qs_rows (queryset_or queryset (all self))) →
  size (RegionManager_get_full_index self queryset)
    = length (qs_rows (queryset_or queryset (all self))) ∧
  ∀ r, r ∈ qs_rows (queryset_or queryset (all self)) →
       RegionManager_get_full_index self queryset !! Region.full_code r = Some r.
Proof.
  intros Hdots Hpairs.
  unfold RegionManager_get_full_index, select_related.
  apply dict_comprehension_distinct.
  set (rows := qs_rows (queryset_or queryset (all self))) in *.
  change Region.full_code with
    ((λ p : string * string, p.1 +:+ "." +:+ p.2)
       ∘ (λ r, (Country.code (Region.country r), Region.code r))).
  rewrite list_fmap_compose.
  apply NoDup_fmap_2_strong; [|done].
  intros [a b] [a' b'] Hin Hin' Heq. simpl in Heq.
  apply list_elem_of_fmap in Hin as (r & [= -> ->] & Hr).
  apply list_elem_of_fmap in Hin' as (r' & [= -> ->] & Hr').
  apply dotted_inj in Heq as [-> ->]; auto.
Qed.

Lemma region_index_complete_witness :
  (∀ r, r ∈ qs_rows (queryset_or None (all (Region_objects [Sample.idf; Sample.bretagne]))) →
        dot_free (Country.code (Region.country r)) = true) ∧
  NoDup ((λ r, (Country.code (Region.country r), Region.code r))
           <$> qs_rows (queryset_or None
                          (all (Region_objects [Sample.idf; Sample.bretagne])))) ∧
  size (RegionManager_get_full_index
          (Region_objects [Sample.idf; Sample.bretagne]) None)
    = length (qs_rows (queryset_or None
                         (all (Region_objects [Sample.idf; Sample.bretagne])))) ∧
  ∀ r, r ∈ qs_rows (queryset_or None
                      (all (Region_objects [Sample.idf; Sample.bretagne]))) →
       RegionManager_get_full_index
         (Region_objects [Sample.idf; Sample.bretagne]) None
         !! Region.full_code r = Some r.
Proof.
  assert (∀ r, r ∈ [Sample.idf; Sample.bretagne] →
               dot_free (Country.code (Region.country r)) = true) as Hdots.
  { intros r Hr. repeat (apply elem_of_cons in Hr as [->|Hr]; [reflexivity|]).
    by apply elem_of_nil in Hr. }
  assert (NoDup ((λ r, (Country.code (Region.country r), Region.code r))
                   <$> [Sample.idf; Sample.bretagne])) as Hpairs.
  { apply NoDup_cons. split; [|apply NoDup_singleton].
    intros Hin. by apply list_elem_of_singleton in Hin. }
  split; [exact Hdots|]. split; [exact Hpairs|].
  exact (region_index_complete
           (Region_objects [Sample.idf; Sample.bretagne]) None Hdots Hpairs).
Defined.

Section IndexLookup.
Context {Row : Type} (key : Row → string).

Lemma dict_comprehension_sound (rows : list Row) (k : string) (r : Row) :
  dict_comprehension key rows !! k = Some r → r ∈ rows ∧ key r = k.
Proof.
  rewrite dict_comprehension_lookup. intros Hlast.
  apply last_Some_elem_of, list_elem_of_filter in Hlast. tauto.
Qed.

Lemma dict_comprehension_miss (rows : list Row) (k : string) :
  dict_comprehension key rows !! k = None ↔ ∀ r, r ∈ rows → key r ≠ k.
Proof.
  rewrite dict_comprehension_lookup, last_None. split.
  - intros Hnil r Hr Hk.
    by eapply (filter_nil_not_elem_of (λ r, key r = k)) in Hnil.
  - intros Hne. destruct (filter _ rows) as [|r rest] eqn:Hf; [done|].
    assert (r ∈ filter (λ r, key r = k) rows) as Hin by (rewrite Hf; left).
    apply list_elem_of_filter in Hin as [Hk Hr]. by destruct (Hne r).
Qed.

End IndexLookup.

(** X15: looking a key up in a full-code index gives only a row of the
    indexed query whose full code is that key, and gives nothing exactly when
    no indexed row has that full code (for [Region] and for [Subregion]). *)
Theorem get_full_index_lookup
    (regions : Manager Region.t) (region_query : option (QuerySet Region.t))
    (subregions : Manager Subregion.t)
    (subregion_query : option (QuerySet Subregion.t)) (k : string) :
  ((∀ r, RegionManager_get_full_index regions region_query !! k = Some r →
         r ∈ qs_rows (queryset_or region_query (all regions)) ∧
         Region.full_code r = k) ∧
   (RegionManager_get_full_index regions region_query !! k = None ↔
    ∀ r, r ∈ qs_rows (queryset_or region_query (all regions)) →
         Region.full_code r ≠ k)) ∧
  ((∀ s, SubregionManager_get_full_index subregions subregion_query !! k = Some s →
         s ∈ qs_rows (queryset_or subregion_query (all subregions)) ∧
         Subregion.full_code s = k) ∧
   (SubregionManager_get_full_index subregions subregion_query !! k = None ↔
    ∀ s, s ∈ qs_rows (queryset_or subregion_query (all subregions)) →
         Subregion.full_code s ≠ k)).
Proof.
  unfold RegionManager_get_full_index, SubregionManager_get_full_index,
    select_related.
  split; (split; [intros ?; apply dict_comprehension_sound
                 | apply dict_comprehension_miss]).
Qed.

(** ** Names of a postal code *)

(** X16: [names] of a postal code holds no empty text: it is made of
    exactly the non-empty ones among the country's name, the region,
    subregion and district names and the postal code's own name, at most
    five. *)
Theorem postal_code_names_nonempty (self : PostalCode.t) :
  Forall (λ e, e ≠ "") (PostalCode_names self) ∧
  length (PostalCode_names self) ≤ 5 ∧
  ∀ e, e ∈ PostalCode_names self ↔
       e ≠ "" ∧
       e ∈ [ Country.name (PostalCode.country self);
             PostalCode.region_name self;
             PostalCode.subregion_name self;
             PostalCode.district_name self;
             PostalCode.name self ].
Proof.
  assert (∀ e, truthy_text e = true ↔ e ≠ "") as Htruthy
    by (intros [|c e]; simpl; split; done).
  split; [|split].
  - apply Forall_forall. intros e He.
    apply list_elem_of_In, filter_In in He as [_ He]. by apply Htruthy.
  - apply (List.filter_length_le truthy_text
             [_; _; _; _; _]).
  - intros e. unfold PostalCode_names.
    rewrite !list_elem_of_In, filter_In, Htruthy. unfold Country_str, force_text.
    tauto.
Qed.

(** X17: [name_full] lists the non-empty names from the postal code's own
    name up to the country's, separated by a comma and a space: a missing
    level leaves no empty name and no doubled separator behind. *)
Theorem postal_code_name_full (self : PostalCode.t) :
  PostalCode_name_full self =
    join ", " (List.filter truthy_text
                 [ PostalCode.name self;
                   PostalCode.district_name self;
                   PostalCode.subregion_name self;
                   PostalCode.region_name self;
                   Country.name (PostalCode.country self) ]).
Proof.
  unfold PostalCode_name_full, PostalCode_names, force_text, Country_str.
  by rewrite <- List.filter_rev.
Qed.

(** ** Row order *)

Section RowOrder.
Context `{GeoBackend}.
Context {Row : Type}.

Lemma elem_of_candidates (self : Manager Row) (loc : Row → Point) (point : Point)
    (range_in_miles : option Z) (r : Row) :
  r ∈ candidates self loc point range_in_miles ↔
  r ∈ table self ∧
  if_int range_in_miles
    (λ n, (geodesic_miles (loc r) point <= inject_Z n)%Q) True.
Proof.
  unfold candidates, if_int. destruct range_in_miles as [n|]; [|tauto].
  destruct (truthy_int (Some n)); [|tauto].
  by rewrite !list_elem_of_In, filter_In, Qle_bool_iff.
Qed.

Lemma candidates_same_rows (self self' : Manager Row) (loc : Row → Point)
    (point : Point) (range_in_miles : option Z) (r : Row) :
  table self' ≡ₚ table self →
  r ∈ candidates self loc point range_in_miles →
  r ∈ candidates self' loc point range_in_miles.
Proof.
  intros Hperm. rewrite !elem_of_candidates. by rewrite Hperm.
Qed.

End RowOrder.

(** X18: the order of the rows in the table does not change how far the
    answer is.  On a model with a location, two tables holding the same rows
    in different orders give answers at the same distance from the point,
    or both give [None]. *)
Theorem nearest_to_order_independent `{GeoBackend} {Row : Type}
    (self self' : Manager Row) (loc : Row → Point) (point : Point)
    (range_in_miles : option Z) (log : list string) :
  location_field (model self) = Some loc →
  model self' = model self →
  table self' ≡ₚ table self →
  ∃ found found' log1 log2,
    PlaceManager_nearest_to self point range_in_miles log = (Return found, log1) ∧
    PlaceManager_nearest_to self' point range_in_miles log = (Return found', log2) ∧
    match found, found' with
    | Some r, Some r' =>
        (geodesic_miles (loc r) point == geodesic_miles (loc r') point)%Q
    | None, None => True
    | _, _ => False
    end.
Proof.
  intros Hloc Hmodel Hperm.
  assert (location_field (model self') = Some loc) as Hloc' by by rewrite Hmodel.
  destruct (nearest_to_candidates self loc point range_in_miles log Hloc)
    as (found & log1 & Hrun & Hnone & Hsome).
  destruct (nearest_to_candidates self' loc point range_in_miles log Hloc')
    as (found' & log2 & Hrun' & Hnone' & Hsome').
  exists found, found', log1, log2. split; [done|]. split; [done|].
  destruct found as [r|], found' as [r'|]; [| | |done].
  - destruct (Hsome r eq_refl) as [Hr Hmin].
    destruct (Hsome' r' eq_refl) as [Hr' Hmin'].
    apply Qle_antisym.
    + apply Hmin. by apply (candidates_same_rows self' self).
    + apply Hmin'. by apply (candidates_same_rows self self').
  - destruct (Hsome r eq_refl) as [Hr _].
    apply (candidates_same_rows self self') in Hr; [|done].
    rewrite (proj1 Hnone' eq_refl) in Hr. by apply elem_of_nil in Hr.
  - destruct (Hsome' r' eq_refl) as [Hr' _].
    apply (candidates_same_rows self' self) in Hr'; [|done].
    rewrite (proj1 Hnone eq_refl) in Hr'. by apply elem_of_nil in Hr'.
Qed.

Lemma nearest_to_order_independent_witness :
  location_field (model (City.objects Sample.cities)) = Some City.location ∧
  model (City.objects (reverse Sample.cities)) = model (City.objects Sample.cities) ∧
  table (City.objects (reverse Sample.cities)) ≡ₚ table (City.objects Sample.cities) ∧
  ∃ found found' log1 log2,
    @PlaceManager_nearest_to Sample.flat _
      (City.objects Sample.cities) Sample.origin None [] = (Return found, log1) ∧
    @PlaceManager_nearest_to Sample.flat _
      (City.objects (reverse Sample.cities)) Sample.origin None [] = (Return found', log2) ∧
    match found, found' with
    | Some r, Some r' =>
        (@geodesic_miles Sample.flat (City.location r) Sample.origin
           == @geodesic_miles Sample.flat (City.location r') Sample.origin)%Q
    | None, None => True
    | _, _ => False
    end.
Proof.
  split; [reflexivity|]. split; [reflexivity|].
  split; [apply reverse_Permutation|].
  apply (@nearest_to_order_independent Sample.flat City.t
           (City.objects Sample.cities) (City.objects (reverse Sample.cities))
           City.location Sample.origin None []);
    [reflexivity | reflexivity | apply reverse_Permutation].
Defined.
